(** * Syntax Extractor: a shallow embedding of the extension host code

    The development follows the TypeScript/JavaScript sources of the
    extension: the webview message handler, the clipboard observer, the
    webview-panel singleton, the HTML loaders and the extraction command.
    Code of the repository that the shown sources import but do not contain
    (the configuration store, the token counter, the compression transform
    and the tree walker of [./operations] and [./commands]) is modelled from
    the specification, each such definition is marked so in its comment. *)

From Stdlib Require Import List String Ascii ZArith Lia Bool Arith.
From Stdlib Require Import Sorted Orders Mergesort Permutation.
Import ListNotations.
Set Warnings "-register-all".
Open Scope Z_scope.
Open Scope list_scope.

(** ** JavaScript strings

    A JavaScript string is a sequence of UTF-16 code units; [.length] counts
    code units. Text is given as a sequence of Unicode scalar values and is
    stored as its UTF-16 encoding. *)

Definition jsstring := list Z.

Definition is_scalar_value (c : Z) : bool :=
  (0 <=? c) && (c <=? 1114111) && negb ((55296 <=? c) && (c <=? 57343)).

(** UTF-16 encoding of one scalar value: one code unit in the basic
    multilingual plane, a surrogate pair above it. *)
Definition utf16_encode_scalar (c : Z) : list Z :=
  if c <? 65536 then [c]
  else [55296 + (c - 65536) / 1024; 56320 + (c - 65536) mod 1024].

Definition utf16_encode (s : list Z) : jsstring :=
  flat_map utf16_encode_scalar s.

(** [s.length] *)
Definition js_length (s : jsstring) : nat := List.length s.

(** ** The token counter

    Modelled from the spec: [getTokenCount] of [./operations] (not among the
    shown sources). Section 4.5 asks for a deterministic, whitespace- and
    punctuation-aware segmentation: every punctuation code unit is a token,
    every maximal run of other non-whitespace code units is a token,
    whitespace separates tokens and is not counted. *)

Definition is_whitespace (c : Z) : bool :=
  (c =? 32) || (c =? 9) || (c =? 10) || (c =? 11) || (c =? 12) || (c =? 13).

Definition is_punctuation (c : Z) : bool :=
  ((33 <=? c) && (c <=? 47)) || ((58 <=? c) && (c <=? 64))
  || ((91 <=? c) && (c <=? 96)) || ((123 <=? c) && (c <=? 126)).

(** [in_word] records whether the previous code unit continues a word. *)
Fixpoint count_segments (in_word : bool) (s : jsstring) : nat :=
  match s with
  | [] => 0
  | c :: r =>
      if is_punctuation c then S (count_segments false r)
      else if is_whitespace c then count_segments false r
      else if in_word then count_segments true r
      else S (count_segments true r)
  end.

Definition getTokenCount (s : jsstring) : nat := count_segments false s.

(** The Counter's result, as computed by the host for a text. *)
Record counts := mkCounts { tokenCount : nat; charCount : nat }.

Definition count (s : jsstring) : counts :=
  mkCounts (getTokenCount s) (js_length s).

(** ** The configuration store

    Modelled from the spec: [ConfigManager] of [./config/ConfigManager] (not
    among the shown sources). Section 6: simple get/set pairs for the file
    types, the compression level and UI-layout preferences such as the
    clipboard box height. *)

Record config := mkConfig {
  compressionLevel : string;
  fileTypes : list string;
  clipboardDataBoxHeight : Z
}.

Definition setCompressionLevel (lvl : string) (c : config) : config :=
  mkConfig lvl (fileTypes c) (clipboardDataBoxHeight c).
Definition setFileTypes (ft : list string) (c : config) : config :=
  mkConfig (compressionLevel c) ft (clipboardDataBoxHeight c).
Definition setClipboardDataBoxHeight (h : Z) (c : config) : config :=
  mkConfig (compressionLevel c) (fileTypes c) h.

(** ** Messages between the host and the webview *)

(** A message received from the webview: its [command] string and the fields
    the handler reads from it. *)
Record message := mkMessage {
  command : string;
  level : string;
  msgFileTypes : list string;
  height : Z;
  text : jsstring;
  fileType : string
}.

(** Messages posted to the webview. *)
Inductive post :=
| RefreshComplete
| SetTokenCount (n : nat)
| SetCharCount (n : nat)
| ConfigUpdatedFileTypes (ft : list string)
| ConfigUpdated (lvl : string) (ft : list string) (h : Z)
| InitConfig (ft : list string) (lvl : string) (h : Z)
| UpdateClipboardDataBox (content : jsstring) (cnt : option (nat * nat)).

(** Observable effects of the host: posting to the webview, opening the
    external web page. *)
Inductive effect :=
| Post (p : post)
| OpenWebpage.

(** ** Array helpers used by the handler *)

(** [arr.indexOf(x)] with [===] on strings; [None] stands for [-1]. *)
Fixpoint indexOf (l : list string) (x : string) : option nat :=
  match l with
  | [] => None
  | y :: r => if String.eqb y x then Some 0%nat
              else option_map S (indexOf r x)
  end.

(** [arr.splice(i, 1)] *)
Fixpoint splice1 (l : list string) (i : nat) : list string :=
  match l, i with
  | [], _ => []
  | _ :: r, O => r
  | y :: r, S i' => y :: splice1 r i'
  end.

(** [arr.push(x)] *)
Definition push (l : list string) (x : string) : list string := l ++ [x].

(** The [updateFileTypes] toggle on the current file types. *)
Definition toggleFileType (current : list string) (ft : string) : list string :=
  match indexOf current ft with
  | Some i => splice1 current i
  | None => push current ft
  end.

(** ** [handleReceivedMessage] (src/unnamed/part_000, lines 234-291)

    [refreshFileTypes] re-seeds the store through the external file-type
    detection routine ([initializeFileTypeConfiguration], Section 6), which
    the handler does not define; it is a parameter of the handler. *)

Section Handler.

Variable refreshFileTypes : config -> config.

(** The [switch] on [message.command]: the new store and the effects. *)
Definition dispatch (m : message) (st : config) : config * list effect :=
  let cmd := command m in
  if String.eqb cmd "refreshFileTypes" then
    (refreshFileTypes st, [Post RefreshComplete])
  else if String.eqb cmd "setCompressionLevel" then
    (setCompressionLevel (level m) st, [])
  else if String.eqb cmd "setFileTypes" then
    (setFileTypes (msgFileTypes m) st, [])
  else if String.eqb cmd "setClipboardDataBoxHeight" then
    (setClipboardDataBoxHeight (height m) st, [])
  else if String.eqb cmd "openWebpage" then
    (st, [OpenWebpage])
  else if String.eqb cmd "countTokens" then
    (st, [Post (SetTokenCount (getTokenCount (text m)))])
  else if String.eqb cmd "countChars" then
    (st, [Post (SetCharCount (js_length (text m)))])
  else if String.eqb cmd "requestCounts" then
    (st, [Post (SetTokenCount (getTokenCount (text m)));
          Post (SetCharCount (js_length (text m)))])
  else if String.eqb cmd "updateFileTypes" then
    let currentFileTypes := toggleFileType (fileTypes st) (fileType m) in
    (setFileTypes currentFileTypes st,
     [Post (ConfigUpdatedFileTypes currentFileTypes)])
  else (st, []).

(** After the [switch]: post back the updated configuration. *)
Definition handleReceivedMessage (m : message) (st : config)
  : config * list effect :=
  let '(st1, eff) := dispatch m st in
  (st1, eff ++ [Post (ConfigUpdated (compressionLevel st1) (fileTypes st1)
                        (clipboardDataBoxHeight st1))]).

End Handler.

(** ** File-type entries

    Section 3: an entry of the FileTypeSet is non-empty, begins with a dot
    and is lower-cased (no ASCII capital letter). *)

Definition is_ascii_upper (a : ascii) : bool :=
  let n := nat_of_ascii a in ((65 <=? n) && (n <=? 90))%nat.

Fixpoint lower_cased (s : string) : bool :=
  match s with
  | EmptyString => true
  | String a r => negb (is_ascii_upper a) && lower_cased r
  end.

Definition valid_file_type (s : string) : bool :=
  match s with
  | EmptyString => false
  | String a _ => Ascii.eqb a "."%char && lower_cased s
  end.

(** ** [clipBoardPolling] (src/unnamed/part_000, lines 294-321)

    The poller keeps [lastKnownClipboardContent]. The initial read (after
    the interval is registered) posts the content with its counts; every
    800 ms tick of [setInterval] posts the content alone. *)

Fixpoint jsstring_eqb (a b : jsstring) : bool :=
  match a, b with
  | [], [] => true
  | x :: a', y :: b' => (x =? y) && jsstring_eqb a' b'
  | _, _ => false
  end.

(** The [setInterval] callback: one tick reading [clipboardContent]. *)
Definition pollTick (lastKnown clipboardContent : jsstring)
  : jsstring * list post :=
  if negb (jsstring_eqb clipboardContent lastKnown) then
    (clipboardContent, [UpdateClipboardDataBox clipboardContent None])
  else (lastKnown, []).

(** The read that follows the registration of the interval. *)
Definition pollInitial (lastKnown clipboardContent : jsstring)
  : jsstring * list post :=
  if negb (jsstring_eqb clipboardContent lastKnown) then
    (clipboardContent,
     [UpdateClipboardDataBox clipboardContent
        (Some (getTokenCount clipboardContent, js_length clipboardContent))])
  else (lastKnown, []).

Fixpoint runTicks (lastKnown : jsstring) (reads : list jsstring) : list post :=
  match reads with
  | [] => []
  | r :: rs => let '(l, ps) := pollTick lastKnown r in ps ++ runTicks l rs
  end.

(** One poller: [lastKnownClipboardContent = ''], the initial read [r0],
    then the clipboard contents read at the successive ticks. *)
Definition clipBoardPolling (r0 : jsstring) (ticks : list jsstring) : list post :=
  let '(l, ps) := pollInitial [] r0 in ps ++ runTicks l ticks.

(** ** The webview panel singleton

    [openWebviewAndExplorerSidebar] (src/unnamed/part_000, lines 174-226)
    and [showWebview] (lines 49-76) share one shape: reveal the panel held
    in the module variable ([globalPanel], resp. [currentPanel]) if there is
    one, otherwise create a panel, store it, and register an [onDidDispose]
    callback that clears the variable. Panels are numbered by creation. *)

Record panel_state := mkPanelState {
  globalPanel : option nat;   (* the module variable *)
  nextPanel : nat;            (* identity of the next panel created *)
  openPanels : list nat       (* panels created and not disposed *)
}.

Inductive panel_action := Reveal (p : nat) | Create (p : nat).

Definition panel_init : panel_state := mkPanelState None 0 [].

Definition openWebviewAndExplorerSidebar (st : panel_state)
  : panel_state * list panel_action :=
  match globalPanel st with
  | Some p => (st, [Reveal p])
  | None =>
      let p := nextPanel st in
      (mkPanelState (Some p) (S p) (p :: openPanels st), [Create p])
  end.

(** The user closes panel [p]: it is disposed, and its [onDidDispose]
    callback sets the module variable to [undefined]. Closing a panel that
    is not open does nothing. *)
Definition disposePanel (p : nat) (st : panel_state) : panel_state :=
  if existsb (Nat.eqb p) (openPanels st) then
    mkPanelState None (nextPanel st)
      (filter (fun q => negb (Nat.eqb p q)) (openPanels st))
  else st.

Inductive panel_event := EvOpen | EvDispose (p : nat).

Definition panel_step (st : panel_state) (e : panel_event) : panel_state :=
  match e with
  | EvOpen => fst (openWebviewAndExplorerSidebar st)
  | EvDispose p => disposePanel p st
  end.

Definition run_panel (evs : list panel_event) : panel_state :=
  fold_left panel_step evs panel_init.

(** ** Loading the webview HTML

    Files are read from a file system given as (path, contents) pairs. A
    read of a missing path throws, as [fs.readFileSync] and
    [vscode.workspace.fs.readFile] do. *)

Inductive result (A : Type) := Ok (a : A) | Throw (err : string).
Arguments Ok {A} a.
Arguments Throw {A} err.

Section Loaders.
Local Open Scope string_scope.

Definition fsys := list (string * string).

Definition dq : string := String (ascii_of_nat 34) EmptyString.

Fixpoint lookup_file (fs : fsys) (p : string) : option string :=
  match fs with
  | [] => None
  | (q, c) :: r => if String.eqb p q then Some c else lookup_file r p
  end.

Definition readFileSync (fs : fsys) (p : string) : result string :=
  match lookup_file fs p with
  | Some c => Ok c
  | None => Throw ("ENOENT: no such file or directory, open '" ++ p ++ "'")
  end.

(** [path.join] / [Uri.joinPath] on already normalised segments. *)
Fixpoint path_join (segs : list string) : string :=
  match segs with
  | [] => EmptyString
  | [s] => s
  | s :: r => s ++ "/" ++ path_join r
  end.

(** Patterns of [String.prototype.replace]: a literal string pattern, or a
    regular expression whose only metacharacter is [.] (any character). *)
Definition pattern := list (option ascii).

Definition literal (s : string) : pattern := map Some (list_ascii_of_string s).

Definition regex_dots (s : string) : pattern :=
  map (fun c => if Ascii.eqb c "."%char then None else Some c)
      (list_ascii_of_string s).

Fixpoint match_prefix (p : pattern) (s : string) : option string :=
  match p, s with
  | [], _ => Some s
  | Some c :: p', String d s' =>
      if Ascii.eqb c d then match_prefix p' s' else None
  | None :: p', String _ s' => match_prefix p' s'
  | _ :: _, EmptyString => None
  end.

(** [s.replace(p, rep)]: the first match only. *)
Fixpoint replace_first (p : pattern) (rep s : string) : string :=
  match match_prefix p s with
  | Some rest => rep ++ rest
  | None =>
      match s with
      | EmptyString => EmptyString
      | String c s' => String c (replace_first p rep s')
      end
  end.

(** [s.replace(/p/g, rep)] for a non-empty pattern; every match consumes at
    least one character, so [length s + 1] steps suffice. *)
Fixpoint replace_all_fuel (fuel : nat) (p : pattern) (rep s : string) : string :=
  match fuel with
  | O => s
  | S f =>
      match match_prefix p s with
      | Some rest => rep ++ replace_all_fuel f p rep rest
      | None =>
          match s with
          | EmptyString => EmptyString
          | String c s' => String c (replace_all_fuel f p rep s')
          end
      end
  end.

Definition replace_all (p : pattern) (rep s : string) : string :=
  replace_all_fuel (S (String.length s)) p rep s.

(** [webview.asWebviewUri] of the host, applied to a file path. *)
Variable asWebviewUri : string -> string.

(** [getWebviewContent] of src/src/extension.ts (lines 58-70): no
    [try]/[catch] around [fs.readFileSync]. *)
Definition getWebviewContent_ext (extensionPath : string) (fs : fsys)
  : result string :=
  let filePath := path_join [extensionPath; "dist"; "webview.html"] in
  match readFileSync fs filePath with
  | Throw e => Throw e
  | Ok content =>
      let scriptUri :=
        asWebviewUri (path_join [extensionPath; "dist"; "webview.js"]) in
      Ok (replace_all (regex_dots ("src=" ++ dq ++ "webview.js" ++ dq))
            ("src=" ++ dq ++ scriptUri ++ dq) content)
  end.

(** [getWebviewContent] of src/unnamed/part_000 (lines 78-106). *)
Definition getWebviewContent (extensionPath : string) (fs : fsys)
  : result string :=
  let basePath := path_join [extensionPath; "src"; "webview"] in
  let htmlPath := path_join [basePath; "webview.html"] in
  match readFileSync fs htmlPath with
  | Throw msg =>
      Ok ("<html><body><h1>Error loading webview content</h1><p>" ++ msg
          ++ "</p></body></html>")
  | Ok htmlContent =>
      let variablesCssUri :=
        asWebviewUri (path_join [basePath; "styles"; "variables.css"]) in
      let webviewCssUri :=
        asWebviewUri (path_join [basePath; "styles"; "webview.css"]) in
      let boxCssUri :=
        asWebviewUri (path_join [basePath; "styles"; "box.css"]) in
      let h1 := replace_first (literal "./styles/variables.css")
                  variablesCssUri htmlContent in
      let h2 := replace_first (literal "./styles/webview.css") webviewCssUri h1 in
      Ok (replace_first (literal "./styles/box.css") boxCssUri h2)
  end.

(** [composeWebViewContent] of src/unnamed/part_000 (lines 324-344). *)
Definition composeWebViewContent (extensionUri : string) (fs : fsys)
  : result string :=
  let htmlPath := path_join [extensionUri; "out"; "webview"; "webview.html"] in
  match readFileSync fs htmlPath with
  | Throw _ => Ok "Error loading webview content."
  | Ok htmlContent =>
      let styleUri :=
        asWebviewUri (path_join [extensionUri; "out"; "webview"; "webview.css"]) in
      let scriptUri :=
        asWebviewUri (path_join [extensionUri; "out"; "webview"; "webview.js"]) in
      let h1 := replace_first
                  (regex_dots ("<link rel=" ++ dq ++ "stylesheet" ++ dq
                               ++ " href=" ++ dq ++ "./webview.css" ++ dq ++ ">"))
                  ("<link rel=" ++ dq ++ "stylesheet" ++ dq ++ " href=" ++ dq
                   ++ styleUri ++ dq ++ ">") htmlContent in
      Ok (replace_first
            (regex_dots ("<script src=" ++ dq ++ "webview.js" ++ dq
                         ++ "></script>"))
            ("<script src=" ++ dq ++ scriptUri ++ dq ++ "></script>") h1)
  end.

End Loaders.

(** ** The extraction engine

    Modelled from the spec: the TreeWalker, FilterPolicy and TreeRenderer of
    [./commands/codeExtractor] and [./operations] (not among the shown
    sources), following Sections 4.1 to 4.3: directories of a fixed ignore
    set are not entered, a file is included iff its suffix, lower-cased, is
    a member of the configured file types, directories without included
    descendants are pruned, and children are sorted with directories first,
    each group alphabetically and case-insensitively. *)

Section Engine.
Local Open Scope string_scope.

Inductive fsentry :=
| FsFile (name : string)
| FsDir (name : string) (entries : list fsentry).

Inductive treenode :=
| TreeNode (absolutePath displayName : string) (isDirectory : bool)
           (children : list treenode).

Definition tn_name (t : treenode) : string :=
  match t with TreeNode _ n _ _ => n end.
Definition tn_isDirectory (t : treenode) : bool :=
  match t with TreeNode _ _ d _ => d end.
Definition tn_children (t : treenode) : list treenode :=
  match t with TreeNode _ _ _ cs => cs end.

Definition lower_ascii (a : ascii) : ascii :=
  if is_ascii_upper a then ascii_of_nat (nat_of_ascii a + 32) else a.

Fixpoint toLowerCase (s : string) : string :=
  match s with
  | EmptyString => EmptyString
  | String a r => String (lower_ascii a) (toLowerCase r)
  end.

(** The suffix of a file name: from its last dot, when that dot is not the
    first character; no suffix otherwise. *)
Fixpoint last_dot_suffix (s : string) : option string :=
  match s with
  | EmptyString => None
  | String a r =>
      match last_dot_suffix r with
      | Some x => Some x
      | None => if Ascii.eqb a "."%char then Some s else None
      end
  end.

Definition extname (name : string) : option string :=
  match name with
  | EmptyString => None
  | String _ r => last_dot_suffix r
  end.

Definition ignoredDirs : list string :=
  [".git"; ".svn"; ".hg"; "node_modules"; "out"; "dist"; "build"].

Definition includeFile (ft : list string) (name : string) : bool :=
  match extname name with
  | Some x => existsb (String.eqb (toLowerCase x)) ft
  | None => false
  end.

Definition ignoredDir (name : string) : bool :=
  existsb (String.eqb name) ignoredDirs.

End Engine.

(** The sort key of a name: its lower-cased character codes. *)
Definition name_key (s : string) : list nat :=
  map nat_of_ascii (list_ascii_of_string (toLowerCase s)).

Fixpoint lex_leb (a b : list nat) : bool :=
  match a, b with
  | [], _ => true
  | _ :: _, [] => false
  | x :: a', y :: b' => (x <? y)%nat || ((x =? y)%nat && lex_leb a' b')
  end.

(** Case-insensitive alphabetical order of names. *)
Definition name_leb (a b : string) : bool := lex_leb (name_key a) (name_key b).

(** Directories before files, each group alphabetically. *)
Definition node_leb (a b : treenode) : bool :=
  match tn_isDirectory a, tn_isDirectory b with
  | true, false => true
  | false, true => false
  | _, _ => name_leb (tn_name a) (tn_name b)
  end.

Lemma lex_leb_total (a b : list nat) : lex_leb a b = true \/ lex_leb b a = true.
Proof.
  revert b; induction a as [|x a IH]; intros [|y b]; simpl; auto.
  destruct (Nat.lt_trichotomy x y) as [H|[H|H]].
  - left; apply Nat.ltb_lt in H; rewrite H; reflexivity.
  - subst; rewrite Nat.ltb_irrefl, Nat.eqb_refl; simpl; apply IH.
  - right; apply Nat.ltb_lt in H; rewrite H; reflexivity.
Qed.

Module NodeOrder <: TotalLeBool'.
Definition t := treenode.
Definition leb := node_leb.
Infix "<=?" := leb (at level 70, no associativity).
Local Coercion is_true : bool >-> Sortclass.
Theorem leb_total : forall a1 a2, a1 <=? a2 \/ a2 <=? a1.
Proof.
  intros a b; unfold is_true, leb, node_leb.
  destruct (tn_isDirectory a), (tn_isDirectory b); auto;
    apply lex_leb_total.
Qed.
End NodeOrder.

Module NodeSort := Sort NodeOrder.

Fixpoint filter_map {A B} (f : A -> option B) (l : list A) : list B :=
  match l with
  | [] => []
  | x :: r => match f x with Some y => y :: filter_map f r | None => filter_map f r end
  end.

Section Walk.
Local Open Scope string_scope.

Definition child_path (p : string) (c : fsentry) : string :=
  path_join [p; match c with FsFile m | FsDir m _ => m end].

(** [walk ft p e]: the tree of entry [e] found at path [p], if it is
    included. *)
Fixpoint walk (ft : list string) (p : string) (e : fsentry) : option treenode :=
  match e with
  | FsFile n => if includeFile ft n then Some (TreeNode p n false []) else None
  | FsDir n es =>
      if ignoredDir n then None
      else
        match NodeSort.sort (filter_map (fun c => walk ft (child_path p c) c) es) with
        | [] => None
        | kids => Some (TreeNode p n true kids)
        end
  end.

End Walk.

Section Render.
Local Open Scope string_scope.

Definition dir_suffix (d : bool) : string := if d then "/" else "".

(** One node and its subtree, under [prefix]; [is_last] selects the
    connector. *)
Fixpoint render_node (prefix : string) (is_last : bool) (t : treenode)
  : list string :=
  match t with
  | TreeNode _ n d cs =>
      let line := prefix ++ (if is_last then "└── " else "├── ")
                  ++ n ++ dir_suffix d in
      let prefix' := prefix ++ (if is_last then "    " else "│   ") in
      let fix go (l : list treenode) : list string :=
        match l with
        | [] => []
        | [c] => render_node prefix' true c
        | c :: r => (render_node prefix' false c ++ go r)%list
        end in
      line :: go cs
  end.

Fixpoint render_children (prefix : string) (l : list treenode) : list string :=
  match l with
  | [] => []
  | [c] => render_node prefix true c
  | c :: r => (render_node prefix false c ++ render_children prefix r)%list
  end.

(** [render]: the lines of the rendered tree, one root per walked path. *)
Definition render (nodes : list treenode) : list string :=
  flat_map (fun t => match t with
                     | TreeNode _ n d cs => (n ++ dir_suffix d) :: render_children "" cs
                     end) nodes.

End Render.

Section Extract.
Local Open Scope string_scope.

Inductive extract_result :=
| EmptySelection
| Walked (nodes : list treenode).

Fixpoint lookup_entry (ws : list (string * fsentry)) (p : string) : option fsentry :=
  match ws with
  | [] => None
  | (q, e) :: r => if String.eqb p q then Some e else lookup_entry r p
  end.

(** Modelled from the spec: [extractCode] of [./commands/codeExtractor] (not
    among the shown sources). Section 4.2: the walk signals EmptySelection
    when no root path resolves to an entry of the workspace [ws], and
    otherwise walks every root that resolves. *)
Definition extractCode (ft : list string) (ws : list (string * fsentry))
  (roots : list string) : extract_result :=
  let resolved := filter_map (fun r => option_map (pair r) (lookup_entry ws r)) roots in
  match resolved with
  | [] => EmptySelection
  | _ => Walked (filter_map (fun '(p, e) => walk ft p e) resolved)
  end.

Inductive command_outcome :=
| Warned (msg : string)
| Extracted (r : extract_result).

Definition noSelectionMessage : string := "No folders selected for extraction.".

(** The [codeExtractor.extractCode] command handler (src/unnamed/part_000,
    lines 13-23): [uri] is the clicked entry, [uris] the multi-selection. *)
Definition extractCodeCommand (ft : list string) (ws : list (string * fsentry))
  (uri : option string) (uris : option (list string)) : command_outcome :=
  match uris with
  | Some ((_ :: _) as l) => Extracted (extractCode ft ws l)
  | _ =>
      match uri with
      | Some u => Extracted (extractCode ft ws [u])
      | None => Warned noSelectionMessage
      end
  end.

(** The root paths the handler passes on. *)
Definition selectedRoots (uri : option string) (uris : option (list string))
  : list string :=
  match uris with
  | Some ((_ :: _) as l) => l
  | _ => match uri with Some u => [u] | None => [] end
  end.

End Extract.

(** ** The compression transform

    Modelled from the spec: the compression of [./operations] (not among
    the shown sources), following Section 3. Light trims the trailing
    whitespace of every line and collapses every run of blank lines to one
    blank line. Full first strips comments with a language-agnostic scanner
    ([//] to the end of the line, the newline kept; [/*] to the next [*/], or
    to the end of the text when unclosed), then applies Light. *)

Inductive compression := CNone | CLight | CFull.

Definition newline : Z := 10.

(** [text.split('\n')] *)
Fixpoint split_lines (s : jsstring) : list jsstring :=
  match s with
  | [] => [[]]
  | c :: r =>
      if c =? newline then [] :: split_lines r
      else match split_lines r with
           | [] => [[c]]
           | l :: ls => (c :: l) :: ls
           end
  end.

(** [lines.join('\n')] *)
Fixpoint join_lines (ls : list jsstring) : jsstring :=
  match ls with
  | [] => []
  | [l] => l
  | l :: r => l ++ newline :: join_lines r
  end.

Fixpoint drop_ws (l : jsstring) : jsstring :=
  match l with
  | c :: r => if is_whitespace c then drop_ws r else l
  | [] => []
  end.

(** [line.trimEnd()] *)
Definition trim_end (l : jsstring) : jsstring := rev (drop_ws (rev l)).

(** Keep the first blank line of every run of blank lines. *)
Fixpoint collapse_blank (prev_blank : bool) (ls : list jsstring) : list jsstring :=
  match ls with
  | [] => []
  | [] :: r => if prev_blank then collapse_blank true r
               else [] :: collapse_blank true r
  | l :: r => l :: collapse_blank false r
  end.

Definition light (s : jsstring) : jsstring :=
  join_lines (collapse_blank false (map trim_end (split_lines s))).

Inductive scan_mode := Code | Slash | LineComment | BlockComment | BlockStar.

Fixpoint strip_comments (m : scan_mode) (s : jsstring) : jsstring :=
  match m, s with
  | _, [] => match m with Slash => [47] | _ => [] end
  | Code, c :: r => if c =? 47 then strip_comments Slash r
                    else c :: strip_comments Code r
  | Slash, c :: r =>
      if c =? 47 then strip_comments LineComment r
      else if c =? 42 then strip_comments BlockComment r
      else 47 :: c :: strip_comments Code r
  | LineComment, c :: r =>
      if c =? newline then newline :: strip_comments Code r
      else strip_comments LineComment r
  | BlockComment, c :: r =>
      if c =? 42 then strip_comments BlockStar r
      else strip_comments BlockComment r
  | BlockStar, c :: r =>
      if c =? 47 then strip_comments Code r
      else if c =? 42 then strip_comments BlockStar r
      else strip_comments BlockComment r
  end.

Definition compress (s : jsstring) (lvl : compression) : jsstring :=
  match lvl with
  | CNone => s
  | CLight => light s
  | CFull => light (strip_comments Code s)
  end.

(** ** Auxiliary definitions for the properties *)

Definition astral_count (s : list Z) : nat :=
  List.length (filter (fun c => 65536 <=? c) s).

(** The message used to exercise the handler at concrete inputs. *)
Definition msg (cmd : string) (t : jsstring) (ft : string) : message :=
  mkMessage cmd EmptyString [] 0 t ft.

Definition config0 : config := mkConfig "none"%string [".ts"%string] 200.

Definition panel_inv (st : panel_state) : Prop :=
  openPanels st = match globalPanel st with
                  | None => []
                  | Some p => [p]
                  end.

Definition no_newline (l : jsstring) : Prop := Forall (fun c => c <> newline) l.

(** The lines of [light s] before they are joined. *)
Definition light_lines (s : jsstring) : list jsstring :=
  collapse_blank false (map trim_end (split_lines s)).

(** No comment opener ([//] or [/*]) occurs in the text. *)
Fixpoint no_open (s : jsstring) : bool :=
  match s with
  | a :: ((b :: _) as r) =>
      negb ((a =? 47) && ((b =? 47) || (b =? 42))) && no_open r
  | _ => true
  end.

(** Every node of a tree, the tree itself first. *)
Fixpoint nodes_of (t : treenode) : list treenode :=
  match t with TreeNode _ _ _ cs => t :: flat_map nodes_of cs end.

(** Children in the order of Section 4.2: for any two children, the first
    is a directory if the second is, and two children of the same kind are
    in case-insensitive alphabetical order. *)
Definition dirs_first_alpha (cs : list treenode) : Prop :=
  forall l1 a l2 b l3, cs = l1 ++ a :: l2 ++ b :: l3 ->
    (tn_isDirectory b = true -> tn_isDirectory a = true) /\
    (tn_isDirectory a = tn_isDirectory b ->
       name_leb (tn_name a) (tn_name b) = true).

(** ** Activation: [settingsFileExists] (src/unnamed/part_000, lines 155-172)

    [workspaceFolders] is [undefined] ([None]) or an array of folder paths.
    [workspaceFolders[0].uri] is evaluated outside the [try]: on an empty
    array it throws. A failed [readFile] is caught and answers [false]. *)



(** ** Pollers started by the panel (lines 198-202, 346-366)

    Every call of [clipBoardPolling] starts an interval poller with its own
    [lastKnownClipboardContent]; none is ever cleared. The pollers are
    represented by their [lastKnownClipboardContent]. *)

(** Every interval poller ticks once while the clipboard holds [clip]. *)
Fixpoint tickAll (clip : jsstring) (pl : list jsstring) : list jsstring * list post :=
  match pl with
  | [] => ([], [])
  | l :: r =>
      let '(l', ps) := pollTick l clip in
      let '(r', qs) := tickAll clip r in
      (l' :: r', ps ++ qs)
  end.

(** [onDidChangeViewState] of [setupWebviewPanelActions]: when the panel
    becomes visible, [sendConfigToWebview()] posts [initConfig] and
    [clipBoardPolling(panel)] starts one more poller, whose first read the
    clipboard holding [clip]. *)
Definition onDidChangeViewState (cfg : config) (visible : bool) (clip : jsstring)
  (pl : list jsstring) : list jsstring * list post :=
  if visible then
    let '(l, ps) := pollInitial [] clip in
    (pl ++ [l], InitConfig (fileTypes cfg) (compressionLevel cfg)
                  (clipboardDataBoxHeight cfg) :: ps)
  else (pl, []).

(** The pollers after the panel became visible [k] times, the clipboard
    holding [clip] throughout. *)
Definition visible_times (k : nat) (cfg : config) (clip : jsstring)
  (pl : list jsstring) : list jsstring :=
  Nat.iter k (fun pl => fst (onDidChangeViewState cfg true clip pl)) pl.

(** The contents posted to the clipboard box, in order. *)
Definition post_contents (ps : list post) : list jsstring :=
  flat_map (fun p => match p with
                     | UpdateClipboardDataBox c _ => [c]
                     | _ => []
                     end) ps.

(** No two neighbours are equal. *)
Fixpoint adj_distinct (l : list jsstring) : Prop :=
  match l with
  | a :: ((b :: _) as r) => a <> b /\ adj_distinct r
  | _ => True
  end.

Definition matches_here (p : pattern) (s : string) : bool :=
  match match_prefix p s with Some _ => true | None => false end.

(** The pattern occurs somewhere in the string. *)
Fixpoint occursb (p : pattern) (s : string) : bool :=
  match s with
  | EmptyString => matches_here p s
  | String _ r => matches_here p s || occursb p r
  end.


Definition with_command (m : message) (cmd : string) : message :=
  mkMessage cmd (level m) (msgFileTypes m) (height m) (text m) (fileType m).

(** * Properties *)

(** ** The Counter and the message handler *)


Lemma utf16_encode_length (s : list Z) :
  js_length (utf16_encode s) = (List.length s + astral_count s)%nat.
Proof.
  unfold js_length, astral_count, utf16_encode.
  induction s as [|c s IH]; simpl; [reflexivity|].
  rewrite length_app, IH. unfold utf16_encode_scalar.
  destruct (Z.ltb_spec c 65536), (Z.leb_spec 65536 c); simpl; lia.
Qed.

Lemma handle_shape (refresh : config -> config) (m : message) (st : config) :
  exists effs,
    snd (handleReceivedMessage refresh m st) =
    effs ++ [Post (ConfigUpdated
                     (compressionLevel (fst (handleReceivedMessage refresh m st)))
                     (fileTypes (fst (handleReceivedMessage refresh m st)))
                     (clipboardDataBoxHeight (fst (handleReceivedMessage refresh m st))))].
Proof.
  unfold handleReceivedMessage.
  destruct (dispatch refresh m st) as [st1 eff]; simpl.
  exists eff; reflexivity.
Qed.

Lemma count_segments_app (b : bool) (t a : jsstring) :
  (count_segments b t <= count_segments b (t ++ a))%nat.
Proof.
  revert b; induction t as [|c t IH]; intros b; simpl; [lia|].
  destruct (is_punctuation c), (is_whitespace c), b;
    pose proof (IH true); pose proof (IH false); lia.
Qed.

(** ** File types *)

Lemma splice1_incl (l : list string) (i : nat) (y : string) :
  In y (splice1 l i) -> In y l.
Proof.
  revert i; induction l as [|z l IH]; intros [|i]; simpl; auto.
  intros [H|H]; [left; exact H | right; exact (IH i H)].
Qed.

Lemma indexOf_Some_In (l : list string) (x : string) (i : nat) :
  indexOf l x = Some i -> In x l.
Proof.
  revert i; induction l as [|y l IH]; intros i; simpl; [discriminate|].
  destruct (String.eqb y x) eqn:E.
  - intros _; left; apply String.eqb_eq; exact E.
  - destruct (indexOf l x) as [j|] eqn:F; simpl; [|discriminate].
    intros _; right; exact (IH j eq_refl).
Qed.

Lemma toggle_valid (l : list string) (x : string) :
  forallb valid_file_type l = true ->
  (forallb valid_file_type (toggleFileType l x) = true <-> valid_file_type x = true).
Proof.
  intros Hl; rewrite forallb_forall in Hl.
  unfold toggleFileType, push.
  destruct (indexOf l x) as [i|] eqn:E; split; intros H.
  - exact (Hl x (indexOf_Some_In l x i E)).
  - apply forallb_forall; intros y Hy; exact (Hl y (splice1_incl l i y Hy)).
  - rewrite forallb_forall in H; apply H, in_or_app; right; left; reflexivity.
  - apply forallb_forall; intros y Hy; apply in_app_or in Hy as [Hy|[Hy|[]]];
      [exact (Hl y Hy)|subst; exact H].
Qed.


(** [C1] (counterexample) The claim that [countChars] reports the number of
    Unicode scalar values fails: the text made of the single scalar value
    U+1F600 is reported with charCount 2. *)
Lemma countChars_scalar_counterexample :
  ~ (forall (refresh : config -> config) (st : config) (s : list Z),
        Forall (fun c => is_scalar_value c = true) s ->
        In (Post (SetCharCount (List.length s)))
           (snd (handleReceivedMessage refresh
                   (msg "countChars"%string (utf16_encode s) EmptyString) st))).
Proof.
  intros H.
  specialize (H (fun c => c) config0 [128512] ltac:(repeat constructor)).
  vm_compute in H. destruct H as [H|[H|[]]]; discriminate H.
Qed.

(** [C1] (amended) The charCount posted for [countChars] and
    [requestCounts] is the JavaScript [length] of the text, i.e. its number
    of UTF-16 code units: the number of scalar values plus one for every
    scalar value outside the basic multilingual plane. *)
Theorem charCount_utf16_code_units (refresh : config -> config) (st : config)
  (m : message) (s : list Z) :
  text m = utf16_encode s ->
  (command m = "countChars"%string \/ command m = "requestCounts"%string) ->
  In (Post (SetCharCount (List.length s + astral_count s)))
     (snd (handleReceivedMessage refresh m st)).
Proof.
  intros Ht Hc. rewrite <- utf16_encode_length, <- Ht.
  unfold handleReceivedMessage, dispatch.
  destruct Hc as [Hc|Hc]; rewrite Hc; simpl; auto.
Qed.

Lemma charCount_utf16_code_units_witness :
  text (msg "countChars"%string (utf16_encode [128512]) EmptyString)
    = utf16_encode [128512] /\
  In (Post (SetCharCount 2))
     (snd (handleReceivedMessage (fun c => c)
             (msg "countChars"%string (utf16_encode [128512]) EmptyString) config0)).
Proof.
  split; [reflexivity|].
  apply (charCount_utf16_code_units (fun c => c) config0
           (msg "countChars"%string (utf16_encode [128512]) EmptyString) [128512]);
    [reflexivity | left; reflexivity].
Defined.

(** [C2] (counterexample) The [updateFileTypes] toggle does not keep the
    FileTypeSet invariant: toggling ["TS"] on the valid set [[".ts"]]
    stores the upper-case, dot-less entry ["TS"]. *)
Lemma updateFileTypes_invalid_counterexample :
  forallb valid_file_type (fileTypes config0) = true /\
  fileTypes (fst (handleReceivedMessage (fun c => c)
                    (msg "updateFileTypes"%string [] "TS"%string) config0))
    = [".ts"%string; "TS"%string] /\
  forallb valid_file_type
    (fileTypes (fst (handleReceivedMessage (fun c => c)
                       (msg "updateFileTypes"%string [] "TS"%string) config0)))
    = false.
Proof. vm_compute. repeat split. Qed.

(** [C2] (amended) The [updateFileTypes] toggle removes the first
    occurrence of [message.fileType] when it is present and appends it
    otherwise, with no normalisation or validation; on a valid set the
    result is valid (every entry non-empty, lower-cased, starting with a
    dot) exactly when the toggled entry is. *)
Theorem updateFileTypes_toggle_valid (refresh : config -> config)
  (st : config) (m : message) :
  command m = "updateFileTypes"%string ->
  forallb valid_file_type (fileTypes st) = true ->
  fileTypes (fst (handleReceivedMessage refresh m st))
    = toggleFileType (fileTypes st) (fileType m) /\
  (forallb valid_file_type (fileTypes (fst (handleReceivedMessage refresh m st)))
     = true <-> valid_file_type (fileType m) = true).
Proof.
  intros Hc Hv.
  assert (E : fileTypes (fst (handleReceivedMessage refresh m st))
              = toggleFileType (fileTypes st) (fileType m)).
  { unfold handleReceivedMessage, dispatch; rewrite Hc; reflexivity. }
  split; [exact E|]. rewrite E. apply toggle_valid; exact Hv.
Qed.

Lemma updateFileTypes_toggle_valid_witness :
  command (msg "updateFileTypes"%string [] ".md"%string) = "updateFileTypes"%string /\
  forallb valid_file_type (fileTypes config0) = true /\
  fileTypes (fst (handleReceivedMessage (fun c => c)
                    (msg "updateFileTypes"%string [] ".md"%string) config0))
    = toggleFileType (fileTypes config0) ".md"%string.
Proof.
  split; [reflexivity|]. split; [reflexivity|].
  apply (updateFileTypes_toggle_valid (fun c => c) config0
           (msg "updateFileTypes"%string [] ".md"%string)); reflexivity.
Defined.

(** [C6] The Counter is monotonic under appending a non-empty string, and
    both of its counts are 0 on the empty text. *)
Theorem count_monotonic_and_empty (t a : jsstring) :
  a <> [] ->
  (tokenCount (count t) <= tokenCount (count (t ++ a)))%nat /\
  tokenCount (count []) = 0%nat /\ charCount (count []) = 0%nat.
Proof.
  intros _. split; [apply count_segments_app | split; reflexivity].
Qed.

Lemma count_monotonic_and_empty_witness :
  [104; 105] <> [] /\
  Nat.le (tokenCount (count [97])) (tokenCount (count ([97] ++ [104; 105]))).
Proof.
  split; [discriminate|].
  apply (count_monotonic_and_empty [97] [104; 105]); discriminate.
Defined.

(** [C10] Whatever its command string, the handling of a webview message
    ends by posting [configUpdated] with the compression level, file types
    and clipboard box height of the store as the handling left it. *)
Theorem handle_posts_configUpdated_last (refresh : config -> config)
  (m : message) (st : config) :
  let st' := fst (handleReceivedMessage refresh m st) in
  exists effs,
    snd (handleReceivedMessage refresh m st) =
    effs ++ [Post (ConfigUpdated (compressionLevel st') (fileTypes st')
                                 (clipboardDataBoxHeight st'))].
Proof. apply handle_shape. Qed.

(** ** The clipboard observer *)

(** [C3] (code_bug) Starting from [lastKnownClipboardContent = ''], an
    empty clipboard at the initial read and ["hi"] at the first tick: the
    tick posts ["hi"] without any count, whereas the initial read of the
    same poller posts the content together with its token and char counts. *)
Theorem clipboard_tick_posts_no_counts :
  clipBoardPolling [] [[104; 105]] = [UpdateClipboardDataBox [104; 105] None] /\
  clipBoardPolling [104; 105] [] =
    [UpdateClipboardDataBox [104; 105] (Some (1%nat, 2%nat))].
Proof. split; reflexivity. Qed.

(** ** Loading the webview HTML *)

Lemma getWebviewContent_total (f : string -> string) (ext : string) (fs : fsys) :
  exists h, getWebviewContent f ext fs = Ok h.
Proof.
  unfold getWebviewContent. destruct (readFileSync _ _); eexists; reflexivity.
Qed.

Lemma composeWebViewContent_total (f : string -> string) (ext : string) (fs : fsys) :
  exists h, composeWebViewContent f ext fs = Ok h.
Proof.
  unfold composeWebViewContent. destruct (readFileSync _ _); eexists; reflexivity.
Qed.

(** [C5] (code_bug) The loaders of src/unnamed/part_000 catch a failed
    read and return fallback content, but [getWebviewContent] of
    src/src/extension.ts lets the exception of [fs.readFileSync] escape when
    [dist/webview.html] is missing. *)
Theorem extension_getWebviewContent_throws (asWebviewUri : string -> string) :
  getWebviewContent_ext asWebviewUri "/ext"%string [] =
    Throw "ENOENT: no such file or directory, open '/ext/dist/webview.html'"%string /\
  (forall ext fs, exists h, getWebviewContent asWebviewUri ext fs = Ok h) /\
  (forall ext fs, exists h, composeWebViewContent asWebviewUri ext fs = Ok h).
Proof.
  split; [reflexivity|]. split.
  - intros; apply getWebviewContent_total.
  - intros; apply composeWebViewContent_total.
Qed.

(** ** The extraction command *)

Lemma filter_map_nonempty {A B} (f : A -> option B) (l : list A) (x : A) (y : B) :
  In x l -> f x = Some y -> filter_map f l <> [].
Proof.
  induction l as [|z l IH]; simpl; [intros []|].
  intros [<-|H] Hf.
  - rewrite Hf; discriminate.
  - destruct (f z); [discriminate | exact (IH H Hf)].
Qed.

Lemma extractCode_not_empty (ft : list string) (ws : list (string * fsentry))
  (roots : list string) (r : string) :
  In r roots -> lookup_entry ws r <> None ->
  exists ns, extractCode ft ws roots = Walked ns.
Proof.
  intros Hin Hr. unfold extractCode.
  destruct (lookup_entry ws r) as [e|] eqn:E; [|congruence].
  destruct (filter_map _ roots) eqn:F.
  - exfalso. refine (filter_map_nonempty _ roots r (r, e) Hin _ F).
    simpl; rewrite E; reflexivity.
  - eexists; reflexivity.
Qed.

(** [C4] The extraction command warns ["No folders selected for
    extraction."] and does not run the extraction exactly when neither
    [uris] (absent or empty) nor [uri] is supplied; when one of the root
    paths it passes on resolves, the extraction yields a walked tree and no
    EmptySelection. *)
Theorem extractCodeCommand_empty_selection (ft : list string)
  (ws : list (string * fsentry)) (uri : option string)
  (uris : option (list string)) :
  (extractCodeCommand ft ws uri uris = Warned noSelectionMessage <->
     uri = None /\ (uris = None \/ uris = Some [])) /\
  (forall r, In r (selectedRoots uri uris) -> lookup_entry ws r <> None ->
     exists ns, extractCodeCommand ft ws uri uris = Extracted (Walked ns)).
Proof.
  split.
  - destruct uris as [[|x l]|], uri; simpl; split; intros H;
      first [discriminate | intuition discriminate | auto].
  - intros r Hin Hr.
    destruct (extractCode_not_empty ft ws _ r Hin Hr) as [ns Hns].
    exists ns. unfold extractCodeCommand.
    destruct uris as [[|x l]|], uri; try (simpl in Hin; contradiction);
      exact (f_equal Extracted Hns).
Qed.

Lemma extractCodeCommand_empty_selection_witness :
  extractCodeCommand [".ts"%string] [] None (Some []) = Warned noSelectionMessage.
Proof.
  apply (proj2 (proj1 (extractCodeCommand_empty_selection [".ts"%string] [] None (Some [])))).
  split; [reflexivity | right; reflexivity].
Defined.

(** ** The webview panel *)


Lemma panel_step_inv (st : panel_state) (e : panel_event) :
  panel_inv st -> panel_inv (panel_step st e).
Proof.
  unfold panel_inv; destruct st as [g n ps]; simpl; intros H; subst ps.
  destruct e as [|q]; simpl.
  - destruct g as [p|]; reflexivity.
  - unfold disposePanel; simpl. destruct g as [p|]; simpl; [|reflexivity].
    rewrite orb_false_r. destruct (Nat.eqb q p); reflexivity.
Qed.

Lemma run_panel_inv (evs : list panel_event) (st : panel_state) :
  panel_inv st -> panel_inv (fold_left panel_step evs st).
Proof.
  revert st; induction evs as [|e evs IH]; intros st H; simpl; auto.
  apply IH, panel_step_inv, H.
Qed.

(** [C9] In every state reached by opening and closing panels, at most
    one panel is open; opening reveals the panel held in [globalPanel] if
    there is one, and otherwise (no panel open) creates exactly one. *)
Theorem at_most_one_panel (evs : list panel_event) :
  let st := run_panel evs in
  (List.length (openPanels st) <= 1)%nat /\
  match globalPanel st with
  | Some p => openWebviewAndExplorerSidebar st = (st, [Reveal p])
  | None =>
      openPanels st = [] /\
      openPanels (fst (openWebviewAndExplorerSidebar st)) = [nextPanel st] /\
      snd (openWebviewAndExplorerSidebar st) = [Create (nextPanel st)]
  end.
Proof.
  intros st.
  assert (H : panel_inv st) by (apply run_panel_inv; reflexivity).
  unfold panel_inv in H.
  unfold openWebviewAndExplorerSidebar.
  destruct (globalPanel st) as [p|]; rewrite H; simpl; auto.
Qed.

(** ** The compression transform *)

Section Compression.


Lemma split_lines_nonempty (s : jsstring) : split_lines s <> [].
Proof.
  induction s as [|c s IH]; simpl; [discriminate|].
  destruct (c =? newline); [discriminate|].
  destruct (split_lines s); [contradiction | discriminate].
Qed.

Lemma split_lines_no_newline (s : jsstring) : Forall no_newline (split_lines s).
Proof.
  induction s as [|c s IH]; simpl; [repeat constructor|].
  destruct (c =? newline) eqn:E; [constructor; [constructor | exact IH]|].
  apply Z.eqb_neq in E.
  destruct (split_lines s) as [|l ls]; [repeat constructor; exact E|].
  inversion IH; subst. constructor; [constructor; assumption | assumption].
Qed.

Lemma split_lines_single (l : jsstring) : no_newline l -> split_lines l = [l].
Proof.
  induction 1 as [|c l Hc Hl IH]; simpl; [reflexivity|].
  apply Z.eqb_neq in Hc; rewrite Hc, IH; reflexivity.
Qed.

Lemma split_lines_app (l t : jsstring) :
  no_newline l -> split_lines (l ++ newline :: t) = l :: split_lines t.
Proof.
  induction 1 as [|c l Hc Hl IH]; simpl; [reflexivity|].
  apply Z.eqb_neq in Hc; rewrite Hc, IH; reflexivity.
Qed.

Lemma split_join (L : list jsstring) :
  L <> [] -> Forall no_newline L -> split_lines (join_lines L) = L.
Proof.
  induction L as [|l [|l2 r] IH]; intros Hne HF; [contradiction| |].
  - inversion HF; subst; simpl; apply split_lines_single; assumption.
  - inversion HF; subst. change (join_lines (l :: l2 :: r))
      with (l ++ newline :: join_lines (l2 :: r)).
    rewrite split_lines_app by assumption.
    rewrite IH; [reflexivity | discriminate | assumption].
Qed.

Lemma join_cons (c : Z) (l : jsstring) (ls : list jsstring) :
  join_lines ((c :: l) :: ls) = c :: join_lines (l :: ls).
Proof. destruct ls; reflexivity. Qed.

Lemma join_split (s : jsstring) : join_lines (split_lines s) = s.
Proof.
  induction s as [|c s IH]; simpl; [reflexivity|].
  destruct (c =? newline) eqn:E.
  - apply Z.eqb_eq in E; subst c.
    destruct (split_lines s) as [|l ls] eqn:S;
      [exfalso; exact (split_lines_nonempty s S)|].
    simpl; rewrite <- IH; reflexivity.
  - destruct (split_lines s) as [|l ls] eqn:S;
      [exfalso; exact (split_lines_nonempty s S)|].
    rewrite join_cons, IH; reflexivity.
Qed.

Lemma drop_ws_suffix (x : jsstring) : exists p, x = p ++ drop_ws x.
Proof.
  induction x as [|c x IH]; simpl; [exists []; reflexivity|].
  destruct (is_whitespace c); [|exists []; reflexivity].
  destruct IH as [p Hp]; exists (c :: p); simpl; rewrite <- Hp; reflexivity.
Qed.

Lemma drop_ws_idem (x : jsstring) : drop_ws (drop_ws x) = drop_ws x.
Proof.
  induction x as [|c x IH]; simpl; [reflexivity|].
  destruct (is_whitespace c) eqn:E; [exact IH|simpl; rewrite E; reflexivity].
Qed.

Lemma trim_end_prefix (l : jsstring) : exists q, l = trim_end l ++ q.
Proof.
  unfold trim_end. destruct (drop_ws_suffix (rev l)) as [p Hp].
  exists (rev p). rewrite <- rev_app_distr, <- Hp, rev_involutive; reflexivity.
Qed.

Lemma trim_end_idem (l : jsstring) : trim_end (trim_end l) = trim_end l.
Proof. unfold trim_end; rewrite rev_involutive, drop_ws_idem; reflexivity. Qed.

Lemma Forall_prefix {A} (P : A -> Prop) (a b : list A) :
  Forall P (a ++ b) -> Forall P a.
Proof. intros H; apply Forall_app in H; apply H. Qed.

Lemma trim_end_no_newline (l : jsstring) : no_newline l -> no_newline (trim_end l).
Proof.
  destruct (trim_end_prefix l) as [q Hq]; intros H; rewrite Hq in H.
  exact (Forall_prefix _ _ _ H).
Qed.

Lemma collapse_Forall (P : jsstring -> Prop) (b : bool) (ls : list jsstring) :
  Forall P ls -> Forall P (collapse_blank b ls).
Proof.
  intros H; revert b; induction H as [|l ls Hl Hls IH]; intros b; simpl;
    [constructor|].
  destruct l as [|c l]; [destruct b; [apply IH | constructor; auto]|].
  constructor; auto.
Qed.

Lemma collapse_idem (b : bool) (ls : list jsstring) :
  collapse_blank b (collapse_blank b ls) = collapse_blank b ls.
Proof.
  revert b; induction ls as [|l ls IH]; intros b; simpl; [reflexivity|].
  destruct l as [|c l].
  - destruct b; simpl; rewrite IH; reflexivity.
  - simpl; rewrite IH; reflexivity.
Qed.

Lemma collapse_nonempty (ls : list jsstring) :
  ls <> [] -> collapse_blank false ls <> [].
Proof. destruct ls as [|[|c l] ls]; simpl; congruence. Qed.

Lemma map_id_Forall {A} (f : A -> A) (l : list A) :
  Forall (fun x => f x = x) l -> map f l = l.
Proof. induction 1; simpl; congruence. Qed.


Lemma light_lines_props (s : jsstring) :
  light_lines s <> [] /\ Forall no_newline (light_lines s) /\
  Forall (fun l => trim_end l = l) (light_lines s).
Proof.
  unfold light_lines. split; [|split].
  - apply collapse_nonempty. destruct (split_lines s) eqn:E;
      [exfalso; exact (split_lines_nonempty s E) | discriminate].
  - apply collapse_Forall, Forall_map.
    eapply Forall_impl; [|apply split_lines_no_newline].
    intros l; apply trim_end_no_newline.
  - apply collapse_Forall, Forall_map, Forall_forall.
    intros l _; apply trim_end_idem.
Qed.

Lemma light_idem (s : jsstring) : light (light s) = light s.
Proof.
  unfold light. fold (light_lines s).
  destruct (light_lines_props s) as [Hne [Hnl Htr]].
  rewrite split_join by assumption.
  rewrite (map_id_Forall _ _ Htr).
  unfold light_lines at 1 2. rewrite collapse_idem. reflexivity.
Qed.

End Compression.


Lemma no_open_cons (c : Z) (s : jsstring) :
  c <> 47 -> no_open s = true -> no_open (c :: s) = true.
Proof.
  intros Hc Hs; destruct s as [|d s]; [reflexivity|].
  change (negb ((c =? 47) && ((d =? 47) || (d =? 42))) && no_open (d :: s) = true).
  apply Z.eqb_neq in Hc; rewrite Hc, Hs; reflexivity.
Qed.

Lemma no_open_tail (c : Z) (s : jsstring) :
  no_open (c :: s) = true -> no_open s = true.
Proof.
  destruct s as [|d s]; [reflexivity|].
  simpl; intros H; apply andb_true_iff in H; apply H.
Qed.

Lemma strip_comments_no_open (m : scan_mode) (s : jsstring) :
  no_open (strip_comments m s) = true.
Proof.
  revert m; induction s as [|c r IH]; intros m.
  - destruct m; reflexivity.
  - destruct m; simpl.
    + destruct (Z.eqb_spec c 47); [apply IH | apply no_open_cons; auto].
    + destruct (Z.eqb_spec c 47); [apply IH|].
      destruct (Z.eqb_spec c 42); [apply IH|].
      change (negb ((47 =? 47) && ((c =? 47) || (c =? 42)))
              && no_open (c :: strip_comments Code r) = true).
      apply Z.eqb_neq in n; apply Z.eqb_neq in n0; rewrite n, n0; simpl.
      apply no_open_cons; [apply Z.eqb_neq; exact n | apply IH].
    + destruct (Z.eqb_spec c newline); [|apply IH].
      apply no_open_cons; [discriminate | apply IH].
    + destruct (c =? 42); apply IH.
    + destruct (c =? 47); [apply IH|]. destruct (c =? 42); apply IH.
Qed.

Lemma strip_comments_clean (s : jsstring) :
  no_open s = true -> strip_comments Code s = s.
Proof.
  induction s as [|c r IH]; intros H; [reflexivity|].
  simpl. destruct (Z.eqb_spec c 47) as [->|Hc].
  - destruct r as [|d r']; [reflexivity|].
    change (negb ((47 =? 47) && ((d =? 47) || (d =? 42))) && no_open (d :: r')
            = true) in H.
    apply andb_true_iff in H as [Hd Hr].
    destruct (Z.eqb_spec d 47); [subst; discriminate Hd|].
    destruct (Z.eqb_spec d 42); [subst; discriminate Hd|].
    simpl. specialize (IH Hr). simpl in IH.
    apply Z.eqb_neq in n; rewrite n in IH |- *.
    apply Z.eqb_neq in n0; rewrite n0.
    injection IH as IH; rewrite IH; reflexivity.
  - rewrite IH; [reflexivity | exact (no_open_tail c r H)].
Qed.

Lemma no_open_app_newline (l t : jsstring) :
  no_open (l ++ newline :: t) = no_open l && no_open t.
Proof.
  induction l as [|c l IH].
  - simpl. destruct t; reflexivity.
  - destruct l as [|d l].
    + simpl. destruct (c =? 47); simpl; destruct t; reflexivity.
    + change ((c :: d :: l) ++ newline :: t) with (c :: d :: (l ++ newline :: t)).
      change (no_open (c :: d :: (l ++ newline :: t)))
        with (negb ((c =? 47) && ((d =? 47) || (d =? 42)))
              && no_open (d :: (l ++ newline :: t))).
      change (no_open (c :: d :: l))
        with (negb ((c =? 47) && ((d =? 47) || (d =? 42))) && no_open (d :: l)).
      change ((d :: l) ++ newline :: t) with (d :: (l ++ newline :: t)) in IH.
      rewrite IH, andb_assoc; reflexivity.
Qed.

Lemma no_open_join (L : list jsstring) :
  no_open (join_lines L) = forallb no_open L.
Proof.
  induction L as [|l [|l2 r] IH]; [reflexivity| simpl; rewrite andb_true_r; reflexivity|].
  change (join_lines (l :: l2 :: r)) with (l ++ newline :: join_lines (l2 :: r)).
  rewrite no_open_app_newline, IH; reflexivity.
Qed.

Lemma no_open_prefix (a b : jsstring) :
  no_open (a ++ b) = true -> no_open a = true.
Proof.
  induction a as [|c a IH]; [reflexivity|].
  intros H. destruct a as [|d a]; [reflexivity|].
  simpl in H |- *. apply andb_true_iff in H as [H1 H2].
  rewrite H1; simpl; apply IH; exact H2.
Qed.

Lemma light_no_open (s : jsstring) :
  no_open s = true -> no_open (light s) = true.
Proof.
  intros H. unfold light. rewrite no_open_join, forallb_forall.
  rewrite <- (join_split s), no_open_join, forallb_forall in H.
  assert (HF : Forall (fun l => no_open l = true) (split_lines s))
    by (apply Forall_forall; exact H).
  intros l Hl. revert l Hl. apply Forall_forall, collapse_Forall, Forall_map.
  eapply Forall_impl; [|exact HF].
  intros l Hl. destruct (trim_end_prefix l) as [q Hq].
  rewrite Hq in Hl. exact (no_open_prefix _ _ Hl).
Qed.

(** [C7] Compression is idempotent at the Light and the Full level. *)
Theorem compress_idempotent (s : jsstring) :
  compress (compress s CLight) CLight = compress s CLight /\
  compress (compress s CFull) CFull = compress s CFull.
Proof.
  split; simpl.
  - apply light_idem.
  - rewrite (strip_comments_clean (light (strip_comments Code s))).
    + apply light_idem.
    + apply light_no_open, strip_comments_no_open.
Qed.

(** ** Traversal order *)

Lemma lex_leb_trans (a b c : list nat) :
  lex_leb a b = true -> lex_leb b c = true -> lex_leb a c = true.
Proof.
  revert b c; induction a as [|x a IH]; intros [|y b] [|z c]; simpl;
    try reflexivity; try discriminate.
  intros H1 H2.
  apply orb_true_iff in H1 as [H1|H1]; apply orb_true_iff in H2 as [H2|H2].
  - apply Nat.ltb_lt in H1, H2. apply orb_true_iff; left; apply Nat.ltb_lt; lia.
  - apply Nat.ltb_lt in H1. apply andb_true_iff in H2 as [H2 _].
    apply Nat.eqb_eq in H2. apply orb_true_iff; left; apply Nat.ltb_lt; lia.
  - apply Nat.ltb_lt in H2. apply andb_true_iff in H1 as [H1 _].
    apply Nat.eqb_eq in H1. apply orb_true_iff; left; apply Nat.ltb_lt; lia.
  - apply andb_true_iff in H1 as [E1 H1], H2 as [E2 H2].
    apply Nat.eqb_eq in E1, E2; subst.
    rewrite Nat.eqb_refl, (IH b c H1 H2), orb_true_r; reflexivity.
Qed.

Lemma node_leb_trans (a b c : treenode) :
  node_leb a b = true -> node_leb b c = true -> node_leb a c = true.
Proof.
  unfold node_leb, name_leb.
  destruct (tn_isDirectory a), (tn_isDirectory b), (tn_isDirectory c);
    try discriminate; try reflexivity; apply lex_leb_trans.
Qed.

Lemma node_leb_props (a b : treenode) :
  node_leb a b = true ->
  (tn_isDirectory b = true -> tn_isDirectory a = true) /\
  (tn_isDirectory a = tn_isDirectory b -> name_leb (tn_name a) (tn_name b) = true).
Proof.
  unfold node_leb.
  destruct (tn_isDirectory a), (tn_isDirectory b); intros H; split;
    intros E; try discriminate; auto.
Qed.

Lemma StronglySorted_middle {A} (R : A -> A -> Prop) (l1 l2 l3 : list A) (a b : A) :
  StronglySorted R (l1 ++ a :: l2 ++ b :: l3) -> R a b.
Proof.
  induction l1 as [|x l1 IH]; simpl; intros H; inversion H; subst.
  - eapply Forall_forall; [eassumption|].
    apply in_or_app; right; left; reflexivity.
  - apply IH; assumption.
Qed.

Lemma sort_dirs_first_alpha (l : list treenode) :
  dirs_first_alpha (NodeSort.sort l).
Proof.
  intros l1 a l2 b l3 E. apply node_leb_props.
  assert (HS : StronglySorted (fun x y => is_true (node_leb x y)) (NodeSort.sort l)).
  { apply NodeSort.StronglySorted_sort. intros x y z; apply node_leb_trans. }
  rewrite E in HS. exact (StronglySorted_middle _ _ _ _ _ _ HS).
Qed.

Lemma In_filter_map {A B} (f : A -> option B) (l : list A) (y : B) :
  In y (filter_map f l) -> exists x, In x l /\ f x = Some y.
Proof.
  induction l as [|x l IH]; simpl; [intros []|].
  destruct (f x) as [z|] eqn:E.
  - intros [<-|H]; [exists x; auto|].
    destruct (IH H) as [x' [H1 H2]]; exists x'; auto.
  - intros H; destruct (IH H) as [x' [H1 H2]]; exists x'; auto.
Qed.

Lemma fsentry_ind' (P : fsentry -> Prop)
  (HF : forall n, P (FsFile n))
  (HD : forall n es, Forall P es -> P (FsDir n es)) :
  forall e, P e.
Proof.
  fix IH 1. intros [n|n es].
  - apply HF.
  - apply HD. induction es as [|e es IHes]; constructor; [apply IH | exact IHes].
Qed.

Lemma walk_nodes_ordered (ft : list string) (e : fsentry) :
  forall p t, walk ft p e = Some t ->
  forall n, In n (nodes_of t) -> dirs_first_alpha (tn_children n).
Proof.
  induction e as [m|m es IH] using fsentry_ind'; intros p t H n Hn; simpl in H.
  - destruct (includeFile ft m); [|discriminate].
    injection H as <-. destruct Hn as [<-|[]].
    intros l1 a l2 b l3 E; destruct l1; discriminate E.
  - destruct (ignoredDir m); [discriminate|].
    destruct (NodeSort.sort _) as [|k ks] eqn:S; [discriminate|].
    injection H as <-.
    change (In n (TreeNode p m true (k :: ks) :: flat_map nodes_of (k :: ks))) in Hn.
    destruct Hn as [<-|Hn].
    + simpl. rewrite <- S. apply sort_dirs_first_alpha.
    + apply in_flat_map in Hn as [k' [Hk' Hn]].
      rewrite <- S in Hk'.
      apply (Permutation_in _ (Permutation_sym (NodeSort.Permuted_sort _))) in Hk'.
      apply In_filter_map in Hk' as [c [Hc Hw]].
      rewrite Forall_forall in IH. exact (IH c Hc _ _ Hw n Hn).
Qed.

(** [C8] In every tree the walk builds, the children of every node list
    the directories before the files and each group in case-insensitive
    alphabetical order; a directory holding [b.ts], [a.ts] and [sub/] is
    rendered with [sub/] before [a.ts] before [b.ts]. *)
Theorem walk_children_order :
  (forall ft p e t, walk ft p e = Some t ->
     forall n, In n (nodes_of t) -> dirs_first_alpha (tn_children n)) /\
  option_map (fun t => render [t])
    (walk [".ts"%string] "root"%string
       (FsDir "root" [FsFile "b.ts"; FsFile "a.ts"; FsDir "sub" [FsFile "c.ts"]]))
  = Some ["root/"; "├── sub/"; "│   └── c.ts"; "├── a.ts"; "└── b.ts"]%string.
Proof.
  split.
  - intros ft p e; apply walk_nodes_ordered.
  - vm_compute. reflexivity.
Qed.

(** * Further properties of the host code *)

(** ** The [updateFileTypes] toggle *)

Lemma toggle_cons_eq (x : string) (r : list string) :
  toggleFileType (x :: r) x = r.
Proof. unfold toggleFileType; simpl; rewrite String.eqb_refl; reflexivity. Qed.

Lemma toggle_cons_neq (x y : string) (r : list string) :
  y <> x -> toggleFileType (y :: r) x = y :: toggleFileType r x.
Proof.
  intros H; unfold toggleFileType; simpl.
  apply String.eqb_neq in H; rewrite H.
  destruct (indexOf r x); reflexivity.
Qed.

(** [X1] Toggling [x] removes one occurrence of [x] when there is one and
    otherwise adds exactly one. *)
Theorem toggle_count_self (l : list string) (x : string) :
  count_occ string_dec (toggleFileType l x) x =
  match count_occ string_dec l x with O => 1%nat | S n => n end.
Proof.
  induction l as [|y r IH].
  - unfold toggleFileType; simpl. destruct (string_dec x x); congruence.
  - destruct (string_dec y x) as [->|Hne].
    + rewrite toggle_cons_eq; simpl. destruct (string_dec x x); [|congruence].
      reflexivity.
    + rewrite toggle_cons_neq by exact Hne. simpl.
      destruct (string_dec y x); [contradiction | exact IH].
Qed.

(** [X2] Toggling [x] leaves the number of occurrences of every other
    entry unchanged. *)
Theorem toggle_count_other (l : list string) (x y : string) :
  y <> x -> count_occ string_dec (toggleFileType l x) y = count_occ string_dec l y.
Proof.
  intros Hyx. induction l as [|z r IH].
  - unfold toggleFileType; simpl. destruct (string_dec x y); congruence.
  - destruct (string_dec z x) as [->|Hne].
    + rewrite toggle_cons_eq; simpl. destruct (string_dec x y); congruence.
    + rewrite toggle_cons_neq by exact Hne. simpl.
      destruct (string_dec z y); rewrite IH; reflexivity.
Qed.

Lemma toggle_count_other_witness :
  ".md"%string <> ".ts"%string /\
  count_occ string_dec (toggleFileType [".ts"; ".md"]%string ".ts"%string) ".md"%string
  = count_occ string_dec [".ts"; ".md"]%string ".md"%string.
Proof.
  split; [discriminate|].
  apply toggle_count_other; discriminate.
Defined.

(** [X3] Toggling an absent entry twice gives back the original list. *)
Theorem toggle_twice_absent (l : list string) (x : string) :
  ~ In x l -> toggleFileType (toggleFileType l x) x = l.
Proof.
  induction l as [|y r IH]; intros H.
  - unfold toggleFileType; simpl. rewrite String.eqb_refl; reflexivity.
  - assert (Hyx : y <> x) by (intros ->; apply H; left; reflexivity).
    rewrite !toggle_cons_neq by exact Hyx.
    rewrite IH; [reflexivity | intros Hr; apply H; right; exact Hr].
Qed.

Lemma toggle_twice_absent_witness :
  ~ In ".md"%string [".ts"%string] /\
  toggleFileType (toggleFileType [".ts"%string] ".md"%string) ".md"%string
  = [".ts"%string].
Proof.
  assert (H : ~ In ".md"%string [".ts"%string])
    by (simpl; intros [H|[]]; discriminate).
  split; [exact H | apply toggle_twice_absent; exact H].
Defined.

(** [X4] On a list without duplicates the toggle keeps it without
    duplicates, flips the membership of [x] and keeps that of every other
    entry. *)
Theorem toggle_nodup (l : list string) (x : string) :
  NoDup l ->
  NoDup (toggleFileType l x) /\
  (In x (toggleFileType l x) <-> ~ In x l) /\
  (forall y, y <> x -> (In y (toggleFileType l x) <-> In y l)).
Proof.
  intros H. rewrite (NoDup_count_occ string_dec) in H.
  pose proof (toggle_count_self l x) as Hs.
  split; [|split].
  - apply (NoDup_count_occ string_dec). intros y.
    destruct (string_dec y x) as [->|Hne].
    + rewrite Hs. specialize (H x).
      destruct (count_occ string_dec l x) as [|[|n]]; lia.
    + rewrite toggle_count_other by exact Hne. apply H.
  - rewrite !(count_occ_In string_dec), Hs. specialize (H x).
    destruct (count_occ string_dec l x) as [|[|n]]; lia.
  - intros y Hne. rewrite !(count_occ_In string_dec), toggle_count_other by exact Hne.
    reflexivity.
Qed.

Lemma toggle_nodup_witness :
  NoDup [".ts"%string; ".md"%string] /\
  NoDup (toggleFileType [".ts"%string; ".md"%string] ".py"%string).
Proof.
  assert (H : NoDup [".ts"%string; ".md"%string]).
  { constructor; [simpl; intros [H|[]]; discriminate|].
    constructor; [intros []|constructor]. }
  split; [exact H | apply (toggle_nodup _ ".py"%string H)].
Defined.

(** ** Dispatch of webview messages *)








(** [X8] [requestCounts] posts what [countTokens] and then [countChars]
    post for the same text, followed by a single [configUpdated]. *)
Theorem handle_requestCounts_composes (refresh : config -> config) (m : message)
  (st : config) :
  snd (handleReceivedMessage refresh (with_command m "requestCounts"%string) st) =
    removelast (snd (handleReceivedMessage refresh (with_command m "countTokens"%string) st))
    ++ snd (handleReceivedMessage refresh (with_command m "countChars"%string) st).
Proof. reflexivity. Qed.

(** ** The clipboard pollers *)

Lemma jsstring_eqb_spec (a b : jsstring) : jsstring_eqb a b = true <-> a = b.
Proof.
  revert b; induction a as [|x a IH]; intros [|y b]; simpl;
    try (split; [discriminate | congruence]); [split; reflexivity|].
  rewrite andb_true_iff, Z.eqb_eq, IH. split; [intros [-> ->]; reflexivity|].
  intros H; injection H as -> ->; split; reflexivity.
Qed.

Lemma pollTick_fst (l r : jsstring) : fst (pollTick l r) = r.
Proof.
  unfold pollTick. destruct (jsstring_eqb r l) eqn:E; simpl; [|reflexivity].
  apply jsstring_eqb_spec in E; congruence.
Qed.

(** [X9] One more tick posts the content read exactly when it differs
    from the content read at the previous tick (or from the starting
    [lastKnownClipboardContent] when there was none). *)
Theorem runTicks_snoc (l : jsstring) (rs : list jsstring) (r : jsstring) :
  runTicks l (rs ++ [r]) =
    runTicks l rs ++
    (if jsstring_eqb r (last rs l) then [] else [UpdateClipboardDataBox r None]).
Proof.
  revert l; induction rs as [|x rs IH]; intros l.
  - simpl. unfold pollTick. destruct (jsstring_eqb r l); reflexivity.
  - simpl. pose proof (pollTick_fst l x) as F.
    destruct (pollTick l x) as [l' ps] eqn:P. simpl in F; subst l'.
    rewrite IH, app_assoc. f_equal. f_equal.
    destruct rs as [|j rs]; [reflexivity|].
    change (last (x :: j :: rs) l) with (last (j :: rs) l).
    clear. revert j; induction rs as [|j' rs IH]; intros j; [reflexivity|].
    exact (IH j').
Qed.

Lemma runTicks_distinct (l : jsstring) (rs : list jsstring) :
  adj_distinct (l :: post_contents (runTicks l rs)).
Proof.
  revert l; induction rs as [|x rs IH]; intros l; simpl; [exact I|].
  unfold pollTick. destruct (jsstring_eqb x l) eqn:E; simpl.
  - apply jsstring_eqb_spec in E; subst x. apply IH.
  - split; [intros ->; rewrite (proj2 (jsstring_eqb_spec x x) eq_refl) in E;
            discriminate|].
    apply IH.
Qed.

(** [X10] A poller started on an empty [lastKnownClipboardContent] never
    posts the same content twice in a row, and its first post is not the
    empty string. *)
Theorem clipBoardPolling_distinct (r0 : jsstring) (ticks : list jsstring) :
  adj_distinct ([] :: post_contents (clipBoardPolling r0 ticks)).
Proof.
  unfold clipBoardPolling, pollInitial. destruct (jsstring_eqb r0 []) eqn:E; simpl.
  - apply runTicks_distinct.
  - split; [intros <-; discriminate|]. apply runTicks_distinct.
Qed.

Lemma tickAll_same (c c' : jsstring) (pl : list jsstring) :
  Forall (eq c) pl -> c' <> c ->
  tickAll c' pl = (repeat c' (List.length pl),
                   repeat (UpdateClipboardDataBox c' None) (List.length pl)).
Proof.
  intros H Hne; induction H as [|l pl Hl Hpl IH]; [reflexivity|]. subst l.
  simpl. unfold pollTick at 1.
  destruct (jsstring_eqb c' c) eqn:E; [apply jsstring_eqb_spec in E; contradiction|].
  simpl. rewrite IH. reflexivity.
Qed.

Lemma pollInitial_fst (clip : jsstring) : fst (pollInitial [] clip) = clip.
Proof.
  unfold pollInitial. destruct (jsstring_eqb clip []) eqn:E; simpl; [|reflexivity].
  apply jsstring_eqb_spec in E; congruence.
Qed.

Lemma visible_times_same (k : nat) (cfg : config) (c : jsstring) (pl : list jsstring) :
  visible_times k cfg c pl = pl ++ repeat c k.
Proof.
  unfold visible_times.
  induction k as [|k IH]; [simpl; rewrite app_nil_r; reflexivity|].
  change (Nat.iter (S k) ?f pl) with (f (Nat.iter k f pl)). rewrite IH.
  unfold onDidChangeViewState. pose proof (pollInitial_fst c) as F.
  destruct (pollInitial [] c) as [l ps]; simpl in F |- *; subst l.
  rewrite <- app_assoc. f_equal. simpl.
  rewrite repeat_cons. reflexivity.
Qed.

(** [X11] Pollers accumulate: after the panel was created (one poller)
    and became visible [k] times while the clipboard held [c], a change of
    the clipboard to [c'] is posted [k + 1] times in the next round of
    ticks. *)
Theorem pollers_accumulate (k : nat) (cfg : config) (c c' : jsstring) :
  c' <> c ->
  snd (tickAll c' (visible_times k cfg c [fst (pollInitial [] c)])) =
    repeat (UpdateClipboardDataBox c' None) (S k).
Proof.
  intros Hne. rewrite pollInitial_fst, visible_times_same.
  rewrite (tickAll_same c c'); [simpl; rewrite repeat_length; reflexivity| |exact Hne].
  constructor; [reflexivity|]. apply Forall_forall; intros x Hx.
  apply repeat_spec in Hx; congruence.
Qed.

Lemma pollers_accumulate_witness :
  [104] <> [97] /\
  snd (tickAll [104] (visible_times 2 config0 [97] [fst (pollInitial [] [97])])) =
    repeat (UpdateClipboardDataBox [104] None) 3.
Proof.
  split; [discriminate|].
  apply (pollers_accumulate 2 config0 [97] [104]); discriminate.
Defined.



(** ** Activation *)



(** ** Loading the webview HTML *)

Lemma replace_first_absent (p : pattern) (rep s : string) :
  occursb p s = false -> replace_first p rep s = s.
Proof.
  induction s as [|c r IH]; intros H; simpl in H |- *; unfold matches_here in H.
  - destruct (match_prefix p EmptyString); [discriminate | reflexivity].
  - destruct (match_prefix p (String c r)); [discriminate|].
    rewrite IH; [reflexivity | exact H].
Qed.


(** [X15] When [webview.html] is read but contains none of the three
    stylesheet paths, [getWebviewContent] returns it verbatim. *)
Theorem getWebviewContent_verbatim (f : string -> string) (ext : string)
  (fs : fsys) (h : string) :
  lookup_file fs (path_join [path_join [ext; "src"; "webview"]; "webview.html"]%string)
    = Some h ->
  occursb (literal "./styles/variables.css") h = false ->
  occursb (literal "./styles/webview.css") h = false ->
  occursb (literal "./styles/box.css") h = false ->
  getWebviewContent f ext fs = Ok h.
Proof.
  intros Hf H1 H2 H3. unfold getWebviewContent, readFileSync. rewrite Hf.
  rewrite (replace_first_absent _ _ h H1), (replace_first_absent _ _ h H2),
    (replace_first_absent _ _ h H3). reflexivity.
Qed.

Lemma getWebviewContent_verbatim_witness :
  getWebviewContent (fun u => u) "/e"%string
    [("/e/src/webview/webview.html", "<p>hi</p>")]%string = Ok "<p>hi</p>"%string.
Proof.
  apply getWebviewContent_verbatim; vm_compute; reflexivity.
Defined.





(** ** The webview panel and the extraction command *)

(** [X18] Opening the webview twice in a row: the second call reveals the
    panel that the first call revealed or created, and changes nothing. *)
Theorem open_twice_reveals (st : panel_state) :
  exists p,
    globalPanel (fst (openWebviewAndExplorerSidebar st)) = Some p /\
    openWebviewAndExplorerSidebar (fst (openWebviewAndExplorerSidebar st)) =
      (fst (openWebviewAndExplorerSidebar st), [Reveal p]) /\
    (globalPanel st = None -> p = nextPanel st).
Proof.
  unfold openWebviewAndExplorerSidebar.
  destruct (globalPanel st) as [q|] eqn:E; simpl.
  - exists q; rewrite E.
    split; [reflexivity | split; [reflexivity | discriminate]].
  - exists (nextPanel st). split; [reflexivity | split; reflexivity].
Qed.









(** Every panel identity handed out so far is below [nextPanel]. *)
Lemma panel_step_fresh (st : panel_state) (e : panel_event) :
  (forall p, globalPanel st = Some p -> (p < nextPanel st)%nat) ->
  (forall p, globalPanel (panel_step st e) = Some p -> (p < nextPanel (panel_step st e))%nat).
Proof.
  intros H p. destruct e as [|q]; simpl.
  - unfold openWebviewAndExplorerSidebar. destruct (globalPanel st) eqn:E; simpl.
    + rewrite E. apply H.
    + intros Hp; injection Hp as <-; lia.
  - unfold disposePanel. destruct (existsb _ _); simpl; [discriminate | apply H].
Qed.

Lemma run_panel_fresh (evs : list panel_event) (st : panel_state) :
  (forall p, globalPanel st = Some p -> (p < nextPanel st)%nat) ->
  forall p, globalPanel (fold_left panel_step evs st) = Some p ->
    (p < nextPanel (fold_left panel_step evs st))%nat.
Proof.
  revert st; induction evs as [|e evs IH]; intros st H; simpl; [exact H|].
  apply IH, panel_step_fresh, H.
Qed.

(** [X24] After any run, closing the current panel and opening the webview
    again creates a new panel, distinct from the closed one, instead of
    revealing it. *)
Theorem reopen_after_dispose (evs : list panel_event) (p : nat) :
  globalPanel (run_panel evs) = Some p ->
  exists q, q <> p /\
    snd (openWebviewAndExplorerSidebar (disposePanel p (run_panel evs))) = [Create q].
Proof.
  intros H.
  assert (Hlt : (p < nextPanel (run_panel evs))%nat)
    by (apply (run_panel_fresh evs panel_init); [discriminate | exact H]).
  assert (Hinv : panel_inv (run_panel evs)) by (apply run_panel_inv; reflexivity).
  unfold panel_inv in Hinv. rewrite H in Hinv.
  unfold disposePanel. rewrite Hinv. simpl. rewrite Nat.eqb_refl. simpl.
  exists (nextPanel (run_panel evs)). split; [lia | reflexivity].
Qed.

Lemma reopen_after_dispose_witness :
  globalPanel (run_panel [EvOpen; EvOpen]) = Some 0%nat /\
  snd (openWebviewAndExplorerSidebar (disposePanel 0%nat (run_panel [EvOpen; EvOpen]))) =
    [Create 1%nat].
Proof.
  assert (H : globalPanel (run_panel [EvOpen; EvOpen]) = Some 0%nat) by reflexivity.
  split; [exact H|].
  destruct (reopen_after_dispose [EvOpen; EvOpen] 0%nat H) as [q [_ Hq]].
  rewrite Hq. vm_compute in Hq. symmetry; exact Hq.
Defined.




